(** * Configuration assembly of the LangGraph examples

    A shallow embedding of [graph_config_example.py] (the fluent
    [GraphConfigBuilder]) and of [enhanced_agent_example.py] (the literal
    constructor [create_enhanced_config], its extension
    [integrate_with_graph_db] and the two example tools), followed by the
    properties of the configuration records they assemble.

    Python dictionaries are finite maps with string keys; two dictionaries
    are equal in Python exactly when they have the same keys with equal
    values, which is Leibniz equality on [gmap]. *)

From stdpp Require Import gmap strings list fin_maps.
From Stdlib Require Import ZArith.

#[local] Set Warnings "-register-all,-clear-no-such-hyp".
#[local] Open Scope string_scope.

(** ** Python values *)

Module Py.

(** The handle returned by the external [SqliteSaver.from_conn_string];
    the examples only store it. *)
Definition SqliteSaver : Type := N.

(** The objects that occur in the configuration records: [str], [int],
    [list], [dict] with string keys, the checkpoint-store handle, and the
    one-argument lambdas of [integrate_with_graph_db] (which map the
    text of their argument to a string). *)
Inductive value : Type :=
| VStr (s : string)
| VInt (n : Z)
| VList (l : list value)
| VDict (d : gmap string value)
| VSaver (h : SqliteSaver)
| VLambda (f : string -> string).

(** [v[key]]: [KeyError] on a missing key and [TypeError] on an object
    that is not a dictionary are both [None]. *)
Definition getitem (v : value) (key : string) : option value :=
  match v with
  | VDict d => d !! key
  | _ => None
  end.

(** [v[key] = x], giving the dictionary after the assignment. *)
Definition setitem (v : value) (key : string) (x : value) : option value :=
  match v with
  | VDict d => Some (VDict (<[key := x]> d))
  | _ => None
  end.

(** [v[outer][key] = x].  Python looks up [v[outer]] and mutates that
    inner dictionary in place; [v] keeps referring to it, so afterwards
    [v[outer]] is the updated inner dictionary and nothing else in [v]
    has changed. *)
Definition setitem_in (v : value) (outer key : string) (x : value)
  : option value :=
  inner ← getitem v outer;
  inner' ← setitem inner key x;
  setitem v outer inner'.

(** The dictionary display [{**d, **other}]: entries are written left to
    right, so an entry of [other] replaces an entry of [d] with the same
    key ([∪] on [gmap] prefers its left operand). *)
Definition unpack_into (d other : gmap string value) : gmap string value :=
  other ∪ d.

(** f-strings: literal pieces and replacement fields (already rendered
    as text), concatenated in order. *)
Inductive fpart : Type :=
| Lit (s : string)
| Field (s : string).

Definition render (p : fpart) : string :=
  match p with
  | Lit s => s
  | Field s => s
  end.

Definition fstring (parts : list fpart) : string :=
  foldr (λ p acc, render p +:+ acc) "" parts.

(** ** The world outside the program

    The process environment read by [os.getenv], and the external
    constructor [SqliteSaver.from_conn_string], which either returns a
    handle or raises. *)
Record world : Type := World {
  environ : gmap string string;
  from_conn_string : string -> option SqliteSaver
}.

(** [os.getenv(key, default)]: the default is used only when the
    variable is unset. *)
Definition getenv (w : world) (key dflt : string) : string :=
  match environ w !! key with
  | Some v => v
  | None => dflt
  end.

End Py.

Import Py.

(** ** graph_config_example.py *)

(** The builder object: its only attribute is [config]. *)
Record GraphConfigBuilder : Type := Builder { config : value }.

(** Methods run on the builder [self], may raise, and may change [self].
    The fluent methods return [self] itself, which is the state carried
    by the monad; their result is [tt].  A raise is [None]: nothing is
    said about the builder after an exception, so the properties below
    are about calls that return, or about whether a call raises. *)
Definition M (A : Type) : Type :=
  GraphConfigBuilder -> option (A * GraphConfigBuilder).

#[export] Instance M_ret : MRet M := λ A x self, Some (x, self).

#[export] Instance M_bind : MBind M := λ A B f m self,
  match m self with
  | Some (x, self') => f x self'
  | None => None
  end.

Definition raise {A : Type} : M A := λ _, None.

(** [self.config["configurable"][key] = x] *)
Definition assign_configurable (key : string) (x : value) : M unit :=
  λ self,
    match setitem_in (config self) "configurable" key x with
    | Some config' => Some (tt, Builder config')
    | None => None
    end.

(** [GraphConfigBuilder()] *)
Definition __init__ : GraphConfigBuilder :=
  Builder (VDict {[ "configurable" := VDict ∅ ]}).

Definition add_thread_id (thread_id : string) : M unit :=
  assign_configurable "thread_id" (VStr thread_id).

Definition add_user_context (user_id session_id : string) : M unit :=
  assign_configurable "user_id" (VStr user_id);;
  assign_configurable "session_id" (VStr session_id).

(** [database] defaults to ["neo4j"] when the caller omits it. *)
Definition add_neo4j_graph (uri user password : string)
    (database : option string) : M unit :=
  let database := default "neo4j" database in
  assign_configurable "graph_db"
    (VDict {[ "type" := VStr "neo4j";
              "uri" := VStr uri;
              "user" := VStr user;
              "password" := VStr password;
              "database" := VStr database ]}).

Definition add_sqlite_graph (db_path : string) : M unit :=
  assign_configurable "graph_db"
    (VDict {[ "type" := VStr "sqlite";
              "path" := VStr db_path ]}).

(** [{"type": memory_type, **kwargs}] *)
Definition add_memory_config (memory_type : string)
    (kwargs : gmap string value) : M unit :=
  assign_configurable "memory"
    (VDict (unpack_into {[ "type" := VStr memory_type ]} kwargs)).

Definition add_checkpointing (w : world) (checkpoint_path : string)
  : M unit :=
  match from_conn_string w checkpoint_path with
  | Some saver => assign_configurable "checkpoint_store" (VSaver saver)
  | None => raise
  end.

Definition add_custom_metadata (metadata : gmap string value) : M unit :=
  assign_configurable "metadata" (VDict metadata).

(** [return self.config]: the caller is handed the builder's own
    dictionary, whose contents at the call are [config self]; the
    builder is not changed. *)
Definition build : M value := λ self, Some (config self, self).

(** The value of a chain [GraphConfigBuilder().m1(...)...build()]. *)
Definition chain (m : M value) : option value :=
  fst <$> m __init__.

Definition create_advanced_config (w : world) : option value :=
  chain (
    add_thread_id "conversation_1";;
    add_user_context "user123" "session456";;
    add_neo4j_graph "bolt://localhost:7687" "neo4j"
      (getenv w "NEO4J_PASSWORD" "password") (Some "langgraph");;
    add_memory_config "neo4j"
      {[ "collection" := VStr "conversations";
         "max_tokens" := VInt 4000 ]};;
    add_checkpointing w "sqlite:///checkpoints.db";;
    add_custom_metadata
      {[ "environment" := VStr "production";
         "version" := VStr "1.0.0";
         "features" :=
           VList [VStr "graph_db"; VStr "memory"; VStr "checkpointing"] ]};;
    build).

Definition create_sqlite_config : option value :=
  chain (
    add_thread_id "thread_2";;
    add_sqlite_graph "./knowledge_graph.db";;
    add_memory_config "sqlite"
      {[ "table" := VStr "conversation_memory" ]};;
    add_custom_metadata
      {[ "graph_schema" :=
           VDict {[ "nodes" :=
                      VList [VStr "concepts"; VStr "entities";
                             VStr "relationships"];
                    "edges" :=
                      VList [VStr "relates_to"; VStr "part_of";
                             VStr "similar_to"] ]} ]};;
    build).

(** ** enhanced_agent_example.py *)

Definition add_numbers (a b : Z) : Z := (a + b)%Z.

Definition get_weather (city : string) : string :=
  fstring [Lit "The weather in "; Field city; Lit " is sunny and 72°F"].

(** [thread_id] defaults to ["1"] when the caller omits it. *)
Definition create_enhanced_config (w : world) (thread_id : option string)
  : option value :=
  let thread_id := default "1" thread_id in
  saver ← from_conn_string w "sqlite:///checkpoints.db";
  Some (VDict {[
    "configurable" := VDict {[
      "thread_id" := VStr thread_id;
      "user_id" := VStr "user123";
      "session_id" := VStr "session456";
      "graph_db" := VDict {[
        "type" := VStr "sqlite";
        "path" := VStr "./knowledge_graph.db";
        "schema" := VDict {[
          "nodes" := VList [VStr "concepts"; VStr "entities";
                            VStr "relationships"];
          "edges" := VList [VStr "relates_to"; VStr "part_of";
                            VStr "similar_to"] ]} ]};
      "memory" := VDict {[
        "type" := VStr "sqlite";
        "table" := VStr "conversation_memory";
        "max_tokens" := VInt 4000;
        "retention_days" := VInt 30 ]};
      "checkpoint_store" := VSaver saver;
      "metadata" := VDict {[
        "environment" := VStr "development";
        "version" := VStr "1.0.0";
        "features" :=
          VList [VStr "graph_db"; VStr "memory"; VStr "checkpointing"];
        "graph_queries" := VDict {[
          "find_related" :=
            VStr "MATCH (n)-[r]->(m) WHERE n.id = $node_id RETURN m, r";
          "get_entities" :=
            VStr "MATCH (n:entity) RETURN n LIMIT 10" ]} ]} ]} ]}).

Definition graph_operations : gmap string value :=
  {[ "store_entity" :=
       VLambda (λ entity, fstring [Lit "Stored entity: "; Field entity]);
     "find_relationships" :=
       VLambda (λ entity,
         fstring [Lit "Found relationships for: "; Field entity]);
     "query_graph" :=
       VLambda (λ query, fstring [Lit "Executed query: "; Field query]) ]}.

Definition integrate_with_graph_db (w : world) : option value :=
  config ← create_enhanced_config w (Some "graph_conversation");
  setitem_in config "configurable" "graph_operations"
    (VDict graph_operations).

(** ** Observations on configuration records *)

(** [v[k1][k2]...[kn]] *)
Fixpoint getitems (v : value) (path : list string) : option value :=
  match path with
  | [] => Some v
  | key :: path' => inner ← getitem v key; getitems inner path'
  end.

(** The entries under the ["configurable"] namespace. *)
Definition configurable_of (cfg : value) : option (gmap string value) :=
  match getitem cfg "configurable" with
  | Some (VDict c) => Some c
  | _ => None
  end.

(** [del v[key]], and [del v[k1]...[kn][key]]. *)
Definition delitem (v : value) (key : string) : option value :=
  match v with
  | VDict d => if d !! key is Some _ then Some (VDict (delete key d)) else None
  | _ => None
  end.

Fixpoint delitem_at (v : value) (path : list string) (key : string)
  : option value :=
  match path with
  | [] => delitem v key
  | outer :: path' =>
      inner ← getitem v outer;
      inner' ← delitem_at inner path' key;
      setitem v outer inner'
  end.

(** A record with exactly the fields [fields] whose ["type"] is the
    string [tag]. *)
Definition has_shape (tag : string) (fields : gset string) (v : value)
  : bool :=
  match v with
  | VDict d =>
      bool_decide (dom d = fields) &&
      match d !! "type" with
      | Some (VStr t) => bool_decide (t = tag)
      | _ => false
      end
  | _ => false
  end.

Definition is_sqlite_variant : value -> bool :=
  has_shape "sqlite" {[ "type"; "path" ]}.

Definition is_neo4j_variant : value -> bool :=
  has_shape "neo4j" {[ "type"; "uri"; "user"; "password"; "database" ]}.

Definition is_sqlite_with_schema : value -> bool :=
  has_shape "sqlite" {[ "type"; "path"; "schema" ]}.

(** The seven entries of the literal constructor. *)
Definition configurable_keys : gset string :=
  {[ "thread_id"; "user_id"; "session_id"; "graph_db"; "memory";
     "checkpoint_store"; "metadata" ]}.

(** ** Records produced by the programs *)

(** One call of a fluent builder method. *)
Inductive call : Type :=
| AddThreadId (thread_id : string)
| AddUserContext (user_id session_id : string)
| AddNeo4jGraph (uri user password : string) (database : option string)
| AddSqliteGraph (db_path : string)
| AddMemoryConfig (memory_type : string) (kwargs : gmap string value)
| AddCheckpointing (checkpoint_path : string)
| AddCustomMetadata (metadata : gmap string value).

Definition invoke (w : world) (c : call) : M unit :=
  match c with
  | AddThreadId thread_id => add_thread_id thread_id
  | AddUserContext user_id session_id => add_user_context user_id session_id
  | AddNeo4jGraph uri user password database =>
      add_neo4j_graph uri user password database
  | AddSqliteGraph db_path => add_sqlite_graph db_path
  | AddMemoryConfig memory_type kwargs => add_memory_config memory_type kwargs
  | AddCheckpointing checkpoint_path => add_checkpointing w checkpoint_path
  | AddCustomMetadata metadata => add_custom_metadata metadata
  end.

Fixpoint invoke_all (w : world) (cs : list call) : M unit :=
  match cs with
  | [] => mret tt
  | c :: cs' => invoke w c;; invoke_all w cs'
  end.

Inductive origin : Type := ByBuilder | ByLiteral.

(** A record is produced either by a builder chain ending in [build], or
    by the literal constructor, possibly extended by
    [integrate_with_graph_db]. *)
Inductive produced (w : world) : origin -> value -> Prop :=
| produced_chain cs cfg :
    chain (invoke_all w cs;; build) = Some cfg ->
    produced w ByBuilder cfg
| produced_enhanced thread_id cfg :
    create_enhanced_config w thread_id = Some cfg ->
    produced w ByLiteral cfg
| produced_integrate cfg :
    integrate_with_graph_db w = Some cfg ->
    produced w ByLiteral cfg.

(** A world in which every connection string opens (as handle 0) and the
    environment is [env]. *)
Definition open_world (env : gmap string string) : world :=
  World env (λ _, Some 0%N).

(** The builder invariant: there is a configurable dictionary, and its
    [graph_db] entry, when present, is one of the two variants. *)
Definition graph_db_invariant (self : GraphConfigBuilder) : Prop :=
  ∃ c,
    configurable_of (config self) = Some c ∧
    ∀ g, c !! "graph_db" = Some g ->
         is_sqlite_variant g = true ∨ is_neo4j_variant g = true.

(** ** What a fluent call does *)

(** The configurable keys a fluent call assigns. *)
Definition writes (c : call) : gset string :=
  match c with
  | AddThreadId _ => {[ "thread_id" ]}
  | AddUserContext _ _ => {[ "user_id"; "session_id" ]}
  | AddNeo4jGraph _ _ _ _ => {[ "graph_db" ]}
  | AddSqliteGraph _ => {[ "graph_db" ]}
  | AddMemoryConfig _ _ => {[ "memory" ]}
  | AddCheckpointing _ => {[ "checkpoint_store" ]}
  | AddCustomMetadata _ => {[ "metadata" ]}
  end.

(** Whether the external constructor opens the store a call asks for;
    the other calls ask for nothing. *)
Definition opens (w : world) (c : call) : bool :=
  match c with
  | AddCheckpointing checkpoint_path =>
      if from_conn_string w checkpoint_path is Some _ then true else false
  | _ => true
  end.

(** The entries a fluent call assigns, as one dictionary; [None] when
    the call raises before it assigns anything. *)
Definition entries (w : world) (c : call) : option (gmap string value) :=
  match c with
  | AddThreadId thread_id => Some {[ "thread_id" := VStr thread_id ]}
  | AddUserContext user_id session_id =>
      Some {[ "user_id" := VStr user_id; "session_id" := VStr session_id ]}
  | AddNeo4jGraph uri user password database =>
      Some {[ "graph_db" :=
        VDict {[ "type" := VStr "neo4j";
                 "uri" := VStr uri;
                 "user" := VStr user;
                 "password" := VStr password;
                 "database" := VStr (default "neo4j" database) ]} ]}
  | AddSqliteGraph db_path =>
      Some {[ "graph_db" :=
        VDict {[ "type" := VStr "sqlite"; "path" := VStr db_path ]} ]}
  | AddMemoryConfig memory_type kwargs =>
      Some {[ "memory" :=
        VDict (unpack_into {[ "type" := VStr memory_type ]} kwargs) ]}
  | AddCheckpointing checkpoint_path =>
      saver ← from_conn_string w checkpoint_path;
      Some {[ "checkpoint_store" := VSaver saver ]}
  | AddCustomMetadata metadata => Some {[ "metadata" := VDict metadata ]}
  end.

(** [v(arg)] for the lambdas of [graph_operations]; calling any other
    object of the records raises [TypeError]. *)
Definition call_value (v : value) (arg : string) : option string :=
  match v with
  | VLambda f => Some (f arg)
  | _ => None
  end.

(** * Properties *)

(** ** Item assignment *)

Lemma configurable_of_Some cfg c :
  configurable_of cfg = Some c ->
  ∃ d, cfg = VDict d ∧ d !! "configurable" = Some (VDict c).
Proof.
  unfold configurable_of, getitem.
  destruct cfg as [| | |d| |]; try discriminate.
  destruct (d !! "configurable") as [[| | |c'| |]|] eqn:E; try discriminate.
  intros [= ->]. by exists d.
Qed.

Lemma configurable_of_dict d c :
  d !! "configurable" = Some (VDict c) ->
  configurable_of (VDict d) = Some c.
Proof. unfold configurable_of, getitem. by intros ->. Qed.

Lemma setitem_in_configurable d c key x :
  d !! "configurable" = Some (VDict c) ->
  setitem_in (VDict d) "configurable" key x
  = Some (VDict (<["configurable" := VDict (<[key := x]> c)]> d)).
Proof. unfold setitem_in, getitem. intros ->. reflexivity. Qed.

(** Without a ["configurable"] dictionary the assignment raises. *)
Lemma setitem_in_configurable_None cfg key x :
  configurable_of cfg = None ->
  setitem_in cfg "configurable" key x = None.
Proof.
  unfold configurable_of, setitem_in, getitem.
  destruct cfg as [| | |d| |]; try done.
  by destruct (d !! "configurable") as [[| | |c'| |]|].
Qed.

(** ** The builder monad *)

Lemma bind_Some {A B} (m : M A) (f : A -> M B) self x self' :
  m self = Some (x, self') -> (m ≫= f) self = f x self'.
Proof. unfold mbind, M_bind. by intros ->. Qed.

Lemma bind_None {A B} (m : M A) (f : A -> M B) self :
  m self = None -> (m ≫= f) self = None.
Proof. unfold mbind, M_bind. by intros ->. Qed.

Lemma assign_configurable_dict key x d c :
  d !! "configurable" = Some (VDict c) ->
  assign_configurable key x (Builder (VDict d))
  = Some (tt, Builder (VDict (<["configurable" := VDict (<[key := x]> c)]> d))).
Proof.
  intros Hc. unfold assign_configurable. simpl.
  by rewrite (setitem_in_configurable _ _ _ _ Hc).
Qed.

Lemma assign_configurable_None key x self :
  configurable_of (config self) = None ->
  assign_configurable key x self = None.
Proof.
  intros Hc. unfold assign_configurable.
  by rewrite setitem_in_configurable_None.
Qed.

(** On a builder with a ["configurable"] dictionary [c] the assignment
    succeeds, [c] gains the entry, and the rest of [config] is kept. *)
Lemma assign_configurable_spec key x self c :
  configurable_of (config self) = Some c ->
  ∃ self',
    assign_configurable key x self = Some (tt, self') ∧
    configurable_of (config self') = Some (<[key := x]> c) ∧
    ∀ k, k ≠ "configurable" ->
         getitem (config self') k = getitem (config self) k.
Proof.
  destruct self as [cfg]. simpl.
  intros (d & -> & Hc)%configurable_of_Some.
  eexists. split; [by apply assign_configurable_dict|]. simpl. split.
  - apply configurable_of_dict. by rewrite lookup_insert_eq.
  - intros k Hk. by rewrite lookup_insert_ne.
Qed.

(** Two assignments to the same key, on any builder: the second one
    alone has the same outcome. *)
Lemma assign_configurable_twice key x y self :
  (assign_configurable key x;; assign_configurable key y) self
  = assign_configurable key y self.
Proof.
  destruct (configurable_of (config self)) as [c|] eqn:Hc.
  - destruct self as [cfg]. simpl in Hc.
    apply configurable_of_Some in Hc as (d & -> & Hc).
    rewrite (bind_Some _ _ _ _ _ (assign_configurable_dict key x d c Hc)).
    rewrite (assign_configurable_dict key y d c Hc).
    rewrite (assign_configurable_dict key y _ (<[key := x]> c))
      by by rewrite lookup_insert_eq.
    by rewrite !insert_insert_eq.
  - rewrite bind_None; by rewrite assign_configurable_None.
Qed.

Lemma getitems_configurable cfg c key path :
  configurable_of cfg = Some c ->
  getitems cfg ("configurable" :: key :: path)
  = inner ← c !! key; getitems inner path.
Proof.
  intros (d & -> & Hc)%configurable_of_Some. simpl. by rewrite Hc.
Qed.

Lemma lookup_unpack_into d other key :
  unpack_into d other !! key
  = match other !! key with Some x => Some x | None => d !! key end.
Proof.
  unfold unpack_into. rewrite lookup_union.
  by destruct (other !! key), (d !! key).
Qed.

(** ** Last write wins *)

(** C3: on every builder with a configurable dictionary, the local-file
    call after the network call succeeds and leaves [graph_db] equal to
    exactly [{type: "sqlite", path: db_path}]; none of the network
    variant's fields is left, and the builder is the one the local-file
    call alone would have given. *)
Theorem add_sqlite_graph_after_neo4j
    self c uri user password database db_path :
  configurable_of (config self) = Some c ->
  ∃ self' c',
    (add_neo4j_graph uri user password database;;
     add_sqlite_graph db_path) self = Some (tt, self') ∧
    add_sqlite_graph db_path self = Some (tt, self') ∧
    configurable_of (config self') = Some c' ∧
    c' !! "graph_db"
    = Some (VDict {[ "type" := VStr "sqlite"; "path" := VStr db_path ]}) ∧
    (∀ field, field ∈ ["uri"; "user"; "password"; "database"] ->
       getitems (config self') ["configurable"; "graph_db"; field] = None) ∧
    ∀ key, key ≠ "graph_db" -> c' !! key = c !! key.
Proof.
  intros Hc. unfold add_neo4j_graph, add_sqlite_graph.
  rewrite assign_configurable_twice.
  destruct (assign_configurable_spec "graph_db"
    (VDict {[ "type" := VStr "sqlite"; "path" := VStr db_path ]}) self c Hc)
    as (self' & Hrun & Hc' & _).
  exists self', (<["graph_db" :=
    VDict {[ "type" := VStr "sqlite"; "path" := VStr db_path ]}]> c).
  repeat split; try done.
  - by rewrite lookup_insert_eq.
  - intros field Hfield.
    rewrite (getitems_configurable _ _ _ _ Hc'), lookup_insert_eq. simpl.
    assert (field ≠ "type" ∧ field ≠ "path") as [? ?].
    { rewrite !elem_of_cons, elem_of_nil in Hfield.
      by destruct Hfield as [->|[->|[->|[->|[]]]]]. }
    by rewrite lookup_insert_ne, lookup_singleton_ne by done.
  - intros key Hkey. by rewrite lookup_insert_ne.
Qed.

Lemma add_sqlite_graph_after_neo4j_witness :
  configurable_of (config __init__) = Some ∅ ∧
  ∃ self',
    (add_neo4j_graph "bolt://localhost:7687" "neo4j" "secret" None;;
     add_sqlite_graph "./knowledge_graph.db") __init__ = Some (tt, self') ∧
    getitems (config self') ["configurable"; "graph_db"; "uri"] = None.
Proof.
  split; [reflexivity|].
  destruct (add_sqlite_graph_after_neo4j __init__ ∅
    "bolt://localhost:7687" "neo4j" "secret" None "./knowledge_graph.db"
    eq_refl) as (self' & c' & Hrun & _ & _ & _ & Hgone & _).
  exists self'. split; [exact Hrun|].
  apply Hgone. apply list_elem_of_here.
Defined.

(** C4: on every builder with a configurable dictionary, two
    [add_custom_metadata] calls in a row succeed and leave [metadata]
    equal to exactly the second call's fields; a field the second call
    did not pass is absent, and the builder is the one the second call
    alone would have given. *)
Theorem add_custom_metadata_overwrites self c (M1 M2 : gmap string value) :
  configurable_of (config self) = Some c ->
  ∃ self' c',
    (add_custom_metadata M1;; add_custom_metadata M2) self
    = Some (tt, self') ∧
    add_custom_metadata M2 self = Some (tt, self') ∧
    configurable_of (config self') = Some c' ∧
    c' !! "metadata" = Some (VDict M2) ∧
    (∀ field, M2 !! field = None ->
       getitems (config self') ["configurable"; "metadata"; field] = None) ∧
    ∀ key, key ≠ "metadata" -> c' !! key = c !! key.
Proof.
  intros Hc. unfold add_custom_metadata.
  rewrite assign_configurable_twice.
  destruct (assign_configurable_spec "metadata" (VDict M2) self c Hc)
    as (self' & Hrun & Hc' & _).
  exists self', (<["metadata" := VDict M2]> c).
  repeat split; try done.
  - by rewrite lookup_insert_eq.
  - intros field Hfield.
    rewrite (getitems_configurable _ _ _ _ Hc'), lookup_insert_eq. simpl.
    by rewrite Hfield.
  - intros key Hkey. by rewrite lookup_insert_ne.
Qed.

Lemma add_custom_metadata_overwrites_witness :
  configurable_of (config __init__) = Some ∅ ∧
  ∃ self',
    (add_custom_metadata {[ "environment" := VStr "production" ]};;
     add_custom_metadata {[ "version" := VStr "1.0.0" ]}) __init__
    = Some (tt, self') ∧
    getitems (config self') ["configurable"; "metadata"; "environment"]
    = None.
Proof.
  split; [reflexivity|].
  destruct (add_custom_metadata_overwrites __init__ ∅
    {[ "environment" := VStr "production" ]}
    {[ "version" := VStr "1.0.0" ]} eq_refl)
    as (self' & c' & Hrun & _ & _ & _ & Hgone & _).
  exists self'. split; [exact Hrun|].
  apply Hgone. reflexivity.
Defined.

(** ** Finalizing *)

(** C6: on every builder, [build] succeeds; two calls in a row return
    equal records (both are the builder's [config]) and leave the
    builder as it was. *)
Theorem build_twice self :
  build self = Some (config self, self) ∧
  ∃ r1 r2,
    (r1 ← build; r2 ← build; mret (r1, r2)) self = Some ((r1, r2), self) ∧
    r1 = r2 ∧ r1 = config self.
Proof.
  split; [reflexivity|]. by exists (config self), (config self).
Qed.

(** ** Memory configuration *)

(** C9: when the extra keyword fields contain a ["type"] entry, that
    entry is the ["type"] of the stored memory record, whatever
    [memory_type] is; the record is then exactly the keyword fields. *)
Theorem add_memory_config_type_collision
    self c memory_type (kwargs : gmap string value) v :
  configurable_of (config self) = Some c ->
  kwargs !! "type" = Some v ->
  ∃ self' c' m,
    add_memory_config memory_type kwargs self = Some (tt, self') ∧
    configurable_of (config self') = Some c' ∧
    c' !! "memory" = Some (VDict m) ∧
    m !! "type" = Some v ∧
    m = kwargs.
Proof.
  intros Hc Htype. unfold add_memory_config.
  destruct (assign_configurable_spec "memory"
    (VDict (unpack_into {[ "type" := VStr memory_type ]} kwargs)) self c Hc)
    as (self' & Hrun & Hc' & _).
  assert (unpack_into {[ "type" := VStr memory_type ]} kwargs = kwargs)
    as Hsame.
  { apply map_eq. intros key. rewrite lookup_unpack_into.
    destruct (kwargs !! key) eqn:Hkey; [done|].
    rewrite lookup_singleton_ne; [done|]. congruence. }
  rewrite Hsame in *.
  exists self', (<["memory" := VDict kwargs]> c), kwargs.
  repeat split; try done.
  by rewrite lookup_insert_eq.
Qed.

Lemma add_memory_config_type_collision_witness :
  configurable_of (config __init__) = Some ∅ ∧
  ({[ "type" := VStr "redis" ]} : gmap string value) !! "type"
  = Some (VStr "redis") ∧
  ∃ self',
    add_memory_config "sqlite" {[ "type" := VStr "redis" ]} __init__
    = Some (tt, self') ∧
    getitems (config self') ["configurable"; "memory"; "type"]
    = Some (VStr "redis").
Proof.
  assert (({[ "type" := VStr "redis" ]} : gmap string value) !! "type"
          = Some (VStr "redis")) as Htag by reflexivity.
  split; [reflexivity|]. split; [exact Htag|].
  destruct (add_memory_config_type_collision __init__ ∅ "sqlite"
    {[ "type" := VStr "redis" ]} (VStr "redis") eq_refl Htag)
    as (self' & c' & m & Hrun & Hc' & Hmem & Htype & _).
  exists self'. split; [exact Hrun|].
  rewrite (getitems_configurable _ _ _ _ Hc'), Hmem. simpl.
  by rewrite Htype.
Defined.

(** Without such an entry the ["type"] is [memory_type]. *)
Lemma add_memory_config_type_default
    self c memory_type (kwargs : gmap string value) :
  configurable_of (config self) = Some c ->
  kwargs !! "type" = None ->
  ∃ self' c',
    add_memory_config memory_type kwargs self = Some (tt, self') ∧
    configurable_of (config self') = Some c' ∧
    c' !! "memory" = Some (VDict (<["type" := VStr memory_type]> kwargs)).
Proof.
  intros Hc Htype. unfold add_memory_config.
  destruct (assign_configurable_spec "memory"
    (VDict (unpack_into {[ "type" := VStr memory_type ]} kwargs)) self c Hc)
    as (self' & Hrun & Hc' & _).
  eexists self', _. repeat split; try done.
  rewrite lookup_insert_eq. do 2 f_equal.
  apply map_eq. intros key. rewrite lookup_unpack_into.
  destruct (decide (key = "type")) as [->|Hne].
  - by rewrite Htype, lookup_insert_eq, lookup_singleton_eq.
  - rewrite lookup_insert_ne, lookup_singleton_ne by done.
    by destruct (kwargs !! key).
Qed.

(** ** The example chains *)

(** C5: the chain of [create_sqlite_config] returns a record whose
    [graph_db] is [{type: "sqlite", path: "./knowledge_graph.db"}] and
    whose [memory] is [{type: "sqlite", table: "conversation_memory"}]. *)
Theorem create_sqlite_config_example :
  ∃ cfg,
    create_sqlite_config = Some cfg ∧
    getitems cfg ["configurable"; "thread_id"] = Some (VStr "thread_2") ∧
    getitems cfg ["configurable"; "graph_db"]
    = Some (VDict {[ "type" := VStr "sqlite";
                     "path" := VStr "./knowledge_graph.db" ]}) ∧
    getitems cfg ["configurable"; "memory"]
    = Some (VDict {[ "type" := VStr "sqlite";
                     "table" := VStr "conversation_memory" ]}).
Proof.
  eexists. split; [reflexivity|].
  repeat split; vm_compute; reflexivity.
Qed.

(** C7: when the checkpoint store opens, [create_advanced_config]
    returns a record whose network password is the value of
    [NEO4J_PASSWORD] if that variable is set and ["password"] if it is
    not; and two runs in any two environments (with the same checkpoint
    store) return records that are equal once the password entry is
    deleted from both. *)
Theorem create_advanced_config_password w1 w2 saver :
  from_conn_string w1 "sqlite:///checkpoints.db" = Some saver ->
  from_conn_string w2 "sqlite:///checkpoints.db" = Some saver ->
  ∃ cfg1 cfg2 rest,
    create_advanced_config w1 = Some cfg1 ∧
    create_advanced_config w2 = Some cfg2 ∧
    (∀ v, environ w1 !! "NEO4J_PASSWORD" = Some v ->
       getitems cfg1 ["configurable"; "graph_db"; "password"]
       = Some (VStr v)) ∧
    (environ w1 !! "NEO4J_PASSWORD" = None ->
       getitems cfg1 ["configurable"; "graph_db"; "password"]
       = Some (VStr "password")) ∧
    delitem_at cfg1 ["configurable"; "graph_db"] "password" = Some rest ∧
    delitem_at cfg2 ["configurable"; "graph_db"] "password" = Some rest.
Proof.
  intros Hopen1 Hopen2.
  unfold create_advanced_config, add_checkpointing.
  rewrite Hopen1, Hopen2.
  assert (∀ pw,
    getenv w1 "NEO4J_PASSWORD" "password" = pw ->
    (∀ v, environ w1 !! "NEO4J_PASSWORD" = Some v -> pw = v) ∧
    (environ w1 !! "NEO4J_PASSWORD" = None -> pw = "password"))
    as Hgetenv.
  { unfold getenv. intros pw <-. split.
    - by intros v ->.
    - by intros ->. }
  destruct (Hgetenv _ eq_refl) as [Hset Hunset]. clear Hgetenv.
  revert Hset Hunset.
  generalize (getenv w1 "NEO4J_PASSWORD" "password") as pw1.
  generalize (getenv w2 "NEO4J_PASSWORD" "password") as pw2.
  intros pw2 pw1 Hset Hunset.
  eexists _, _, _. split; [reflexivity|]. split; [reflexivity|].
  split; [|split; [|split]].
  - intros v Hv. rewrite (Hset v Hv). vm_compute. reflexivity.
  - intros Hv. rewrite (Hunset Hv). vm_compute. reflexivity.
  - vm_compute. reflexivity.
  - vm_compute. reflexivity.
Qed.

Lemma create_advanced_config_password_witness :
  from_conn_string (open_world {[ "NEO4J_PASSWORD" := "s3cret" ]})
    "sqlite:///checkpoints.db" = Some 0%N ∧
  from_conn_string (open_world ∅) "sqlite:///checkpoints.db" = Some 0%N ∧
  ∃ cfg1 cfg2,
    create_advanced_config (open_world {[ "NEO4J_PASSWORD" := "s3cret" ]})
    = Some cfg1 ∧
    create_advanced_config (open_world ∅) = Some cfg2 ∧
    getitems cfg1 ["configurable"; "graph_db"; "password"]
    = Some (VStr "s3cret") ∧
    delitem_at cfg1 ["configurable"; "graph_db"] "password"
    = delitem_at cfg2 ["configurable"; "graph_db"] "password".
Proof.
  split; [reflexivity|]. split; [reflexivity|].
  destruct (create_advanced_config_password
    (open_world {[ "NEO4J_PASSWORD" := "s3cret" ]}) (open_world ∅) 0%N
    eq_refl eq_refl)
    as (cfg1 & cfg2 & rest & H1 & H2 & Hset & _ & Hrest1 & Hrest2).
  exists cfg1, cfg2. split; [exact H1|]. split; [exact H2|].
  split; [apply Hset; reflexivity|].
  by rewrite Hrest1, Hrest2.
Defined.

(** ** The example tools *)

(** C8: [add_numbers] returns the sum of its arguments, and
    [get_weather] returns the sentence built from the city name alone
    (it takes nothing from the world). *)
Theorem tools_return :
  (∀ a b : Z, add_numbers a b = (a + b)%Z) ∧
  ∀ city : string,
    get_weather city
    = "The weather in " +:+ city +:+ " is sunny and 72°F".
Proof.
  split; [reflexivity|].
  intros city. unfold get_weather, fstring. simpl. reflexivity.
Qed.

(** ** The literal constructor *)

(** When the checkpoint store opens, the constructor returns a record
    with the single top-level entry ["configurable"], whose dictionary has
    the seven entries of [configurable_keys]. *)
Lemma create_enhanced_config_Some w saver thread_id :
  from_conn_string w "sqlite:///checkpoints.db" = Some saver ->
  ∃ c,
    create_enhanced_config w thread_id
    = Some (VDict {[ "configurable" := VDict c ]}) ∧
    dom c = configurable_keys ∧
    c !! "thread_id" = Some (VStr (default "1" thread_id)) ∧
    c !! "checkpoint_store" = Some (VSaver saver) ∧
    ∃ g, c !! "graph_db" = Some g ∧ is_sqlite_with_schema g = true.
Proof.
  intros Hopen. unfold create_enhanced_config. rewrite Hopen. simpl.
  generalize (default "1" thread_id) as t. intros t.
  eexists. split; [reflexivity|].
  split; [by rewrite !dom_insert_L, dom_singleton_L|].
  split; [reflexivity|]. split; [reflexivity|].
  eexists. split; [reflexivity|]. vm_compute. reflexivity.
Qed.

(** If the checkpoint store cannot be opened, nothing is returned. *)
Lemma create_enhanced_config_None w thread_id :
  from_conn_string w "sqlite:///checkpoints.db" = None ->
  create_enhanced_config w thread_id = None.
Proof. intros Hopen. unfold create_enhanced_config. by rewrite Hopen. Qed.

(** C1, as stated, fails on the call without argument: the configurable
    dictionary has the enumerated keys, and they are not five. *)
Lemma create_enhanced_config_not_five_keys :
  ∃ cfg c,
    create_enhanced_config (open_world ∅) None = Some cfg ∧
    configurable_of cfg = Some c ∧
    dom c = configurable_keys ∧
    size (dom c) ≠ 5.
Proof.
  eexists _, _. split; [reflexivity|]. split; [reflexivity|].
  assert (size configurable_keys = 7) as Hsize by reflexivity.
  split; [by rewrite !dom_insert_L, dom_singleton_L|].
  rewrite !dom_insert_L, dom_singleton_L.
  change (size configurable_keys ≠ 5). rewrite Hsize. discriminate.
Qed.

(** C1 (amended): whenever the checkpoint store opens, for every string
    argument and for the call without argument, the constructor returns
    a record whose configurable dictionary has exactly the seven keys
    [thread_id], [user_id], [session_id], [graph_db], [memory],
    [checkpoint_store], [metadata]; [thread_id] is the argument, and
    ["1"] in the call without argument. *)
Theorem create_enhanced_config_keys w saver thread_id :
  from_conn_string w "sqlite:///checkpoints.db" = Some saver ->
  ∃ cfg c,
    create_enhanced_config w thread_id = Some cfg ∧
    configurable_of cfg = Some c ∧
    dom c = configurable_keys ∧
    size (dom c) = 7 ∧
    (∀ t, thread_id = Some t -> c !! "thread_id" = Some (VStr t)) ∧
    (thread_id = None -> c !! "thread_id" = Some (VStr "1")).
Proof.
  intros Hopen.
  destruct (create_enhanced_config_Some w saver thread_id Hopen)
    as (c & Hcfg & Hdom & Hthread & _).
  exists (VDict {[ "configurable" := VDict c ]}), c.
  split; [done|]. split; [done|]. split; [done|].
  split; [by rewrite Hdom|].
  split; [by intros t ->|by intros ->].
Qed.

Lemma create_enhanced_config_keys_witness :
  from_conn_string (open_world ∅) "sqlite:///checkpoints.db" = Some 0%N ∧
  ∃ cfg,
    create_enhanced_config (open_world ∅) None = Some cfg ∧
    getitems cfg ["configurable"; "thread_id"] = Some (VStr "1").
Proof.
  split; [reflexivity|].
  destruct (create_enhanced_config_keys (open_world ∅) 0%N None eq_refl)
    as (cfg & c & Hcfg & Hc & _ & _ & _ & Hdefault).
  exists cfg. split; [exact Hcfg|].
  rewrite (getitems_configurable _ _ _ _ Hc), (Hdefault eq_refl).
  reflexivity.
Defined.

(** C10: when the checkpoint store opens, [integrate_with_graph_db]
    returns the record of [create_enhanced_config "graph_conversation"]
    with one more configurable entry, ["graph_operations"], which was
    not there before and holds the three operations; every other
    configurable entry and the rest of the record are as they were. *)
Theorem integrate_with_graph_db_frame w saver :
  from_conn_string w "sqlite:///checkpoints.db" = Some saver ->
  ∃ cfg cfg' c c',
    create_enhanced_config w (Some "graph_conversation") = Some cfg ∧
    integrate_with_graph_db w = Some cfg' ∧
    configurable_of cfg = Some c ∧
    configurable_of cfg' = Some c' ∧
    c !! "graph_operations" = None ∧
    c' !! "graph_operations" = Some (VDict graph_operations) ∧
    dom graph_operations
    = {[ "store_entity"; "find_relationships"; "query_graph" ]} ∧
    dom c' = dom c ∪ {[ "graph_operations" ]} ∧
    (∀ key, key ≠ "graph_operations" -> c' !! key = c !! key) ∧
    (∀ key, key ≠ "configurable" -> getitem cfg' key = getitem cfg key).
Proof.
  intros Hopen.
  destruct (create_enhanced_config_Some w saver
    (Some "graph_conversation") Hopen) as (c & Hcfg & Hdom & _).
  exists (VDict {[ "configurable" := VDict c ]}),
    (VDict (<["configurable" :=
               VDict (<["graph_operations" := VDict graph_operations]> c)]>
            {[ "configurable" := VDict c ]})),
    c, (<["graph_operations" := VDict graph_operations]> c).
  split; [done|]. split.
  { unfold integrate_with_graph_db. rewrite Hcfg. simpl.
    apply setitem_in_configurable. by rewrite lookup_singleton_eq. }
  split; [done|].
  split; [apply configurable_of_dict; by rewrite lookup_insert_eq|].
  split.
  { apply not_elem_of_dom. rewrite Hdom. unfold configurable_keys.
    rewrite !elem_of_union, !elem_of_singleton. intuition discriminate. }
  split; [by rewrite lookup_insert_eq|].
  split; [unfold graph_operations;
          by rewrite !dom_insert_L, dom_singleton_L|].
  split; [rewrite dom_insert_L; apply (comm_L (∪))|].
  split.
  - intros key Hkey. by rewrite lookup_insert_ne.
  - intros key Hkey. simpl. by rewrite lookup_insert_ne.
Qed.

Lemma integrate_with_graph_db_frame_witness :
  from_conn_string (open_world ∅) "sqlite:///checkpoints.db" = Some 0%N ∧
  ∃ cfg cfg',
    create_enhanced_config (open_world ∅) (Some "graph_conversation")
    = Some cfg ∧
    integrate_with_graph_db (open_world ∅) = Some cfg' ∧
    getitems cfg' ["configurable"; "thread_id"]
    = getitems cfg ["configurable"; "thread_id"].
Proof.
  split; [reflexivity|].
  destruct (integrate_with_graph_db_frame (open_world ∅) 0%N eq_refl)
    as (cfg & cfg' & c & c' & Hcfg & Hcfg' & Hc & Hc' & _ & _ & _ & _
        & Hframe & _).
  exists cfg, cfg'. split; [exact Hcfg|]. split; [exact Hcfg'|].
  rewrite (getitems_configurable _ _ _ _ Hc),
    (getitems_configurable _ _ _ _ Hc').
  by rewrite Hframe.
Defined.

(** ** The shape of [graph_db] *)

Lemma bind_inv {A B} (m : M A) (f : A -> M B) self r :
  (m ≫= f) self = Some r ->
  ∃ x self1, m self = Some (x, self1) ∧ f x self1 = Some r.
Proof.
  unfold mbind, M_bind.
  destruct (m self) as [[x self1]|]; [|discriminate].
  intros Hf. by exists x, self1.
Qed.

Lemma is_sqlite_variant_written db_path :
  is_sqlite_variant
    (VDict {[ "type" := VStr "sqlite"; "path" := VStr db_path ]}) = true.
Proof.
  unfold is_sqlite_variant, has_shape.
  rewrite dom_insert_L, dom_singleton_L, lookup_insert_eq.
  by rewrite !bool_decide_eq_true_2.
Qed.

Lemma is_neo4j_variant_written uri user password database :
  is_neo4j_variant
    (VDict {[ "type" := VStr "neo4j";
              "uri" := VStr uri;
              "user" := VStr user;
              "password" := VStr password;
              "database" := VStr database ]}) = true.
Proof.
  unfold is_neo4j_variant, has_shape.
  rewrite !dom_insert_L, dom_singleton_L, lookup_insert_eq.
  by rewrite !bool_decide_eq_true_2.
Qed.

Lemma graph_db_invariant_init : graph_db_invariant __init__.
Proof.
  exists ∅. split; [reflexivity|]. intros g Hg.
  by rewrite lookup_empty in Hg.
Qed.

(** An assignment keeps the invariant when it writes another entry, or
    writes one of the two variants to [graph_db]. *)
Lemma graph_db_invariant_assign key x self self' :
  key ≠ "graph_db" ∨ is_sqlite_variant x = true ∨ is_neo4j_variant x = true ->
  graph_db_invariant self ->
  assign_configurable key x self = Some (tt, self') ->
  graph_db_invariant self'.
Proof.
  intros Hwrite (c & Hc & Hshape) Hrun.
  destruct (assign_configurable_spec key x self c Hc)
    as (self'' & Hrun' & Hc' & _).
  rewrite Hrun in Hrun'. injection Hrun' as <-.
  exists (<[key := x]> c). split; [done|].
  intros g. destruct (decide (key = "graph_db")) as [->|Hne].
  - rewrite lookup_insert_eq. intros [= <-].
    by destruct Hwrite as [?|?].
  - rewrite lookup_insert_ne by done. apply Hshape.
Qed.

Lemma graph_db_invariant_invoke w c self self' :
  graph_db_invariant self ->
  invoke w c self = Some (tt, self') ->
  graph_db_invariant self'.
Proof.
  intros Hinv.
  destruct c as [thread_id|user_id session_id|uri user password database
                |db_path|memory_type kwargs|checkpoint_path|metadata];
    simpl.
  - apply graph_db_invariant_assign; [by left|done].
  - intros ([] & self1 & Hrun1 & Hrun2)%bind_inv.
    apply (graph_db_invariant_assign "session_id" (VStr session_id) self1);
      [by left| |exact Hrun2].
    by apply (graph_db_invariant_assign "user_id" (VStr user_id) self);
      [left|..].
  - apply graph_db_invariant_assign; [|done].
    right; right. apply is_neo4j_variant_written.
  - apply graph_db_invariant_assign; [|done].
    right; left. apply is_sqlite_variant_written.
  - apply graph_db_invariant_assign; [by left|done].
  - unfold add_checkpointing.
    destruct (from_conn_string w checkpoint_path); [|discriminate].
    apply graph_db_invariant_assign; [by left|done].
  - apply graph_db_invariant_assign; [by left|done].
Qed.

Lemma graph_db_invariant_invoke_all w cs : ∀ self self',
  graph_db_invariant self ->
  invoke_all w cs self = Some (tt, self') ->
  graph_db_invariant self'.
Proof.
  induction cs as [|c cs IH]; intros self self' Hinv; simpl.
  - by intros [= <-].
  - intros ([] & self1 & Hrun1 & Hrun2)%bind_inv.
    eapply IH; [|exact Hrun2].
    eapply graph_db_invariant_invoke; [exact Hinv|exact Hrun1].
Qed.

(** Every builder reached from [GraphConfigBuilder()] by fluent calls
    has a configurable dictionary. *)
Lemma invoke_all_configurable w cs self :
  invoke_all w cs __init__ = Some (tt, self) ->
  ∃ c, configurable_of (config self) = Some c.
Proof.
  intros Hrun.
  destruct (graph_db_invariant_invoke_all w cs _ _
    graph_db_invariant_init Hrun) as (c & Hc & _).
  by exists c.
Qed.

(** On a builder with a configurable dictionary every fluent call
    returns, except [add_checkpointing] when the store cannot be
    opened. *)
Lemma invoke_Some w c self cfgble :
  configurable_of (config self) = Some cfgble ->
  match c with
  | AddCheckpointing checkpoint_path =>
      is_Some (from_conn_string w checkpoint_path)
  | _ => True
  end ->
  ∃ self', invoke w c self = Some (tt, self').
Proof.
  intros Hc Hopen.
  destruct c as [thread_id|user_id session_id|uri user password database
                |db_path|memory_type kwargs|checkpoint_path|metadata];
    simpl.
  2: { destruct (assign_configurable_spec "user_id" (VStr user_id)
         self cfgble Hc) as (self1 & Hrun1 & Hc1 & _).
       destruct (assign_configurable_spec "session_id" (VStr session_id)
         self1 _ Hc1) as (self2 & Hrun2 & _).
       exists self2. unfold add_user_context.
       by rewrite (bind_Some _ _ _ _ _ Hrun1). }
  5: { unfold add_checkpointing. destruct Hopen as [saver ->].
       destruct (assign_configurable_spec "checkpoint_store"
         (VSaver saver) self cfgble Hc) as (self' & Hrun & _).
       by exists self'. }
  all: unfold add_thread_id, add_neo4j_graph, add_sqlite_graph,
         add_memory_config, add_custom_metadata; cbv zeta;
       match goal with
       | |- ∃ _, assign_configurable ?key ?x _ = _ =>
           destruct (assign_configurable_spec key x _ _ Hc)
             as (self' & Hrun & _);
           by exists self'
       end.
Qed.

(** C2, as stated, fails on the literal constructor: its [graph_db] has
    a third field, [schema], so it is neither of the two variants. *)
Lemma create_enhanced_config_graph_db_not_variant :
  ∃ cfg g,
    create_enhanced_config (open_world ∅) None = Some cfg ∧
    getitems cfg ["configurable"; "graph_db"] = Some g ∧
    getitems g ["schema"] ≠ None ∧
    ¬ (is_sqlite_variant g = true ∨ is_neo4j_variant g = true).
Proof.
  eexists _, _. split; [reflexivity|]. split; [reflexivity|].
  split; [discriminate|].
  vm_compute. intros [?|?]; discriminate.
Qed.

(** The [graph_db] entry of a produced record, when there is one. *)
Lemma produced_graph_db_present w o cfg g :
  produced w o cfg ->
  getitems cfg ["configurable"; "graph_db"] = Some g ->
  match o with
  | ByBuilder => is_sqlite_variant g = true ∨ is_neo4j_variant g = true
  | ByLiteral => is_sqlite_with_schema g = true
  end.
Proof.
  intros Hproduced Hg.
  destruct Hproduced as [cs cfg Hchain|thread_id cfg Hcfg|cfg Hcfg].
  - unfold chain in Hchain.
    destruct ((invoke_all w cs;; build) __init__) as [[r self]|] eqn:Hrun;
      [|discriminate].
    simpl in Hchain. injection Hchain as ->.
    apply bind_inv in Hrun as ([] & self1 & Hrun & [= <- <-]).
    destruct (graph_db_invariant_invoke_all w cs _ _
      graph_db_invariant_init Hrun) as (c & Hc & Hshape).
    rewrite (getitems_configurable _ _ _ _ Hc) in Hg.
    destruct (c !! "graph_db") as [g'|] eqn:Hg'; [|discriminate].
    simpl in Hg. injection Hg as <-. by apply Hshape.
  - destruct (from_conn_string w "sqlite:///checkpoints.db")
      as [saver|] eqn:Hopen;
      [|by rewrite create_enhanced_config_None in Hcfg].
    destruct (create_enhanced_config_Some w saver thread_id Hopen)
      as (c & Hcfg' & _ & _ & _ & g' & Hg' & Hshape).
    rewrite Hcfg' in Hcfg. injection Hcfg as <-.
    rewrite (getitems_configurable _ c) in Hg
      by (apply configurable_of_dict; by rewrite lookup_singleton_eq).
    rewrite Hg' in Hg. simpl in Hg. by injection Hg as <-.
  - unfold integrate_with_graph_db in Hcfg.
    destruct (from_conn_string w "sqlite:///checkpoints.db")
      as [saver|] eqn:Hopen;
      [|by rewrite create_enhanced_config_None in Hcfg].
    destruct (create_enhanced_config_Some w saver
      (Some "graph_conversation") Hopen)
      as (c & Hcfg' & _ & _ & _ & g' & Hg' & Hshape).
    rewrite Hcfg' in Hcfg. simpl in Hcfg.
    rewrite (setitem_in_configurable _ c) in Hcfg
      by by rewrite lookup_singleton_eq.
    injection Hcfg as <-.
    rewrite (getitems_configurable _
      (<["graph_operations" := VDict graph_operations]> c)) in Hg
      by (apply configurable_of_dict; by rewrite lookup_insert_eq).
    rewrite lookup_insert_ne, Hg' in Hg by done.
    simpl in Hg. by injection Hg as <-.
Qed.


(** * Further properties of the builder *)

(** ** A fluent call as one update *)

Lemma entries_opens w c : is_Some (entries w c) ↔ opens w c = true.
Proof.
  destruct c; simpl; try (split; [done|by eexists]).
  destruct (from_conn_string w checkpoint_path); simpl.
  - split; [done|by eexists].
  - split; [by intros [? ?]|done].
Qed.

Lemma entries_dom w c e : entries w c = Some e -> dom e = writes c.
Proof.
  destruct c; simpl; try (intros [= <-]).
  all: try by rewrite ?dom_insert_L, dom_singleton_L.
  destruct (from_conn_string w checkpoint_path); [|discriminate].
  simpl. intros [= <-]. by rewrite dom_singleton_L.
Qed.

(** On a builder with configurable dictionary [cf], a call either raises
    (no entries) or puts its entries over [cf]. *)
Lemma invoke_dict w c d cf :
  d !! "configurable" = Some (VDict cf) ->
  invoke w c (Builder (VDict d))
  = e ← entries w c;
    Some (tt, Builder (VDict (<["configurable" := VDict (e ∪ cf)]> d))).
Proof.
  intros Hcf.
  destruct c as [thread_id|user_id session_id|uri user password database
                |db_path|memory_type kwargs|checkpoint_path|metadata];
    simpl.
  2: { unfold add_user_context.
       rewrite (bind_Some _ _ _ _ _
         (assign_configurable_dict "user_id" _ d cf Hcf)).
       rewrite (assign_configurable_dict "session_id" _ _
         (<["user_id" := VStr user_id]> cf))
         by by rewrite lookup_insert_eq.
       rewrite insert_insert_eq.
       rewrite <- !insert_union_l, <- insert_union_singleton_l.
       by rewrite (insert_insert_ne _ "user_id" "session_id"). }
  5: { unfold add_checkpointing.
       destruct (from_conn_string w checkpoint_path) as [saver|]; [|done].
       simpl. rewrite (assign_configurable_dict _ _ d cf Hcf).
       by rewrite (insert_union_singleton_l cf). }
  all: unfold add_thread_id, add_neo4j_graph, add_sqlite_graph,
         add_memory_config, add_custom_metadata; cbv zeta;
       rewrite (assign_configurable_dict _ _ d cf Hcf);
       by rewrite (insert_union_singleton_l cf).
Qed.

Lemma invoke_None w c self :
  configurable_of (config self) = None -> invoke w c self = None.
Proof.
  intros Hcf.
  destruct c; simpl;
    unfold add_thread_id, add_user_context, add_neo4j_graph,
      add_sqlite_graph, add_memory_config, add_checkpointing,
      add_custom_metadata; cbv zeta.
  2: by rewrite bind_None by by apply assign_configurable_None.
  5: destruct (from_conn_string w checkpoint_path); [|done].
  all: by apply assign_configurable_None.
Qed.

Lemma invoke_then_dict w c1 c2 d cf :
  d !! "configurable" = Some (VDict cf) ->
  (invoke w c1;; invoke w c2) (Builder (VDict d))
  = e1 ← entries w c1; e2 ← entries w c2;
    Some (tt, Builder (VDict (<["configurable" :=
                                 VDict (e2 ∪ (e1 ∪ cf))]> d))).
Proof.
  intros Hcf. unfold mbind at 1, M_bind.
  rewrite (invoke_dict w c1 d cf Hcf).
  destruct (entries w c1) as [e1|]; [|done]. simpl.
  rewrite (invoke_dict w c2 _ (e1 ∪ cf)) by by rewrite lookup_insert_eq.
  destruct (entries w c2) as [e2|]; [|done]. simpl.
  by rewrite insert_insert_eq.
Qed.

Lemma forallb_opens_false w cs :
  forallb (opens w) cs = false ↔
  ∃ checkpoint_path,
    AddCheckpointing checkpoint_path ∈ cs ∧
    from_conn_string w checkpoint_path = None.
Proof.
  induction cs as [|c cs IH]; simpl.
  - split; [done|]. intros (p & Hp & _). by apply elem_of_nil in Hp.
  - rewrite andb_false_iff, IH. split.
    + intros [Hc|(p & Hp & Hnone)].
      * destruct c; try discriminate. simpl in Hc.
        exists checkpoint_path. split; [apply list_elem_of_here|].
        by destruct (from_conn_string w checkpoint_path).
      * exists p. split; [by apply list_elem_of_further|done].
    + intros (p & Hp & Hnone). apply elem_of_cons in Hp as [<-|Hp].
      * left. simpl. by rewrite Hnone.
      * right. by exists p.
Qed.

(** A chain of calls on a builder with a configurable dictionary, when
    every store it asks for opens. *)
Lemma invoke_all_dict w cs : ∀ d cf,
  d !! "configurable" = Some (VDict cf) ->
  forallb (opens w) cs = true ->
  ∃ cf',
    invoke_all w cs (Builder (VDict d))
    = Some (tt, Builder (VDict (<["configurable" := VDict cf']> d))) ∧
    dom cf' = ⋃ (writes <$> cs) ∪ dom cf ∧
    ∀ key, key ∉ ⋃ (writes <$> cs) -> cf' !! key = cf !! key.
Proof.
  induction cs as [|c cs IH]; intros d cf Hcf Hopen; simpl in *.
  - exists cf. split; [by rewrite insert_id|].
    split; [by rewrite (left_id_L ∅ (∪))|done].
  - apply andb_true_iff in Hopen as [Hc Hcs].
    apply entries_opens in Hc as [e He].
    pose proof (entries_dom w c e He) as Hdom.
    destruct (IH (<["configurable" := VDict (e ∪ cf)]> d) (e ∪ cf))
      as (cf' & Hrun & Hdom' & Hframe); [by rewrite lookup_insert_eq|done|].
    exists cf'. split; [|split].
    + unfold mbind, M_bind. rewrite (invoke_dict w c d cf Hcf), He. simpl.
      by rewrite Hrun, insert_insert_eq.
    + rewrite Hdom', dom_union_L, Hdom. set_solver.
    + intros key Hkey. apply not_elem_of_union in Hkey as [Hc Hcs'].
      rewrite (Hframe key Hcs'), lookup_union_r; [done|].
      apply not_elem_of_dom. by rewrite Hdom.
Qed.

Lemma invoke_all_dict_None w cs : ∀ d cf,
  d !! "configurable" = Some (VDict cf) ->
  forallb (opens w) cs = false ->
  invoke_all w cs (Builder (VDict d)) = None.
Proof.
  induction cs as [|c cs IH]; intros d cf Hcf Hopen; simpl in *.
  - discriminate.
  - unfold mbind, M_bind. rewrite (invoke_dict w c d cf Hcf).
    destruct (entries w c) as [e|] eqn:He; [|done]. simpl.
    assert (opens w c = true) as Hc by (apply entries_opens; by eexists).
    rewrite Hc in Hopen. simpl in Hopen.
    apply (IH _ (e ∪ cf)); [by rewrite lookup_insert_eq|done].
Qed.

(** ** Composition of fluent calls *)

(** X1: on a builder with a configurable dictionary, a chain of calls
    whose stores all open returns; afterwards the dictionary has the
    keys it had and the keys the calls write, every entry that no call
    writes is as before, and nothing outside ["configurable"] has
    changed. *)
Theorem invoke_all_frame w cs self cf :
  configurable_of (config self) = Some cf ->
  forallb (opens w) cs = true ->
  ∃ self' cf',
    invoke_all w cs self = Some (tt, self') ∧
    configurable_of (config self') = Some cf' ∧
    dom cf' = ⋃ (writes <$> cs) ∪ dom cf ∧
    (∀ key, (∀ c, c ∈ cs -> key ∉ writes c) -> cf' !! key = cf !! key) ∧
    ∀ key, key ≠ "configurable" ->
           getitem (config self') key = getitem (config self) key.
Proof.
  destruct self as [cfg]. simpl.
  intros (d & -> & Hcf)%configurable_of_Some Hopen.
  destruct (invoke_all_dict w cs d cf Hcf Hopen)
    as (cf' & Hrun & Hdom & Hframe).
  eexists _, cf'. split; [exact Hrun|]. simpl.
  split; [apply configurable_of_dict; by rewrite lookup_insert_eq|].
  split; [done|]. split.
  - intros key Hkey. apply Hframe.
    rewrite elem_of_union_list. intros (X & HX & Hin).
    apply list_elem_of_fmap in HX as (c & -> & Hc).
    by apply (Hkey c Hc).
  - intros key Hkey. by rewrite lookup_insert_ne.
Qed.

Lemma invoke_all_frame_witness :
  configurable_of (config __init__) = Some ∅ ∧
  forallb (opens (open_world ∅))
    [AddThreadId "t1"; AddCheckpointing "sqlite:///c.db"] = true ∧
  ∃ self',
    invoke_all (open_world ∅)
      [AddThreadId "t1"; AddCheckpointing "sqlite:///c.db"] __init__
    = Some (tt, self').
Proof.
  split; [reflexivity|]. split; [reflexivity|].
  destruct (invoke_all_frame (open_world ∅)
    [AddThreadId "t1"; AddCheckpointing "sqlite:///c.db"] __init__ ∅
    eq_refl eq_refl) as (self' & _ & Hrun & _).
  by exists self'.
Defined.

(** X2: two calls that write different keys can be made in either
    order: on every builder both orders have the same outcome (the same
    builder, or both raise). *)
Theorem invoke_comm w c1 c2 self :
  writes c1 ∩ writes c2 = ∅ ->
  (invoke w c1;; invoke w c2) self = (invoke w c2;; invoke w c1) self.
Proof.
  intros Hdisj.
  destruct (configurable_of (config self)) as [cf|] eqn:Hcf.
  - destruct self as [cfg]. simpl in Hcf.
    apply configurable_of_Some in Hcf as (d & -> & Hcf).
    rewrite !(invoke_then_dict _ _ _ d cf Hcf).
    destruct (entries w c1) as [e1|] eqn:He1,
             (entries w c2) as [e2|] eqn:He2; simpl; try done.
    rewrite !(assoc_L (∪)), (map_union_comm e2 e1); [done|].
    apply map_disjoint_dom.
    rewrite (entries_dom w c1 e1 He1), (entries_dom w c2 e2 He2).
    set_solver.
  - by rewrite !bind_None by by apply invoke_None.
Qed.

Lemma invoke_comm_witness :
  writes (AddThreadId "t1") ∩ writes (AddSqliteGraph "./g.db") = ∅ ∧
  (invoke (open_world ∅) (AddThreadId "t1");;
   invoke (open_world ∅) (AddSqliteGraph "./g.db")) __init__
  = (invoke (open_world ∅) (AddSqliteGraph "./g.db");;
     invoke (open_world ∅) (AddThreadId "t1")) __init__.
Proof.
  assert (writes (AddThreadId "t1") ∩ writes (AddSqliteGraph "./g.db") = ∅)
    as Hdisj by (vm_compute; reflexivity).
  split; [exact Hdisj|].
  exact (invoke_comm (open_world ∅) (AddThreadId "t1")
           (AddSqliteGraph "./g.db") __init__ Hdisj).
Defined.

(** X3: on a builder with a configurable dictionary, when the stores
    of two calls that write the same keys both open, the two calls in
    sequence and the later call alone both return, and return the same
    builder: nothing of the earlier call is left. *)
Theorem invoke_overwrites w c1 c2 self cf :
  configurable_of (config self) = Some cf ->
  writes c1 = writes c2 ->
  opens w c1 = true ->
  opens w c2 = true ->
  ∃ self',
    (invoke w c1;; invoke w c2) self = Some (tt, self') ∧
    invoke w c2 self = Some (tt, self').
Proof.
  destruct self as [cfg]. simpl.
  intros (d & -> & Hcf)%configurable_of_Some Hsame Hopen1 Hopen2.
  apply entries_opens in Hopen1 as [e1 He1].
  apply entries_opens in Hopen2 as [e2 He2].
  rewrite (invoke_then_dict _ _ _ d cf Hcf), (invoke_dict _ _ d cf Hcf).
  rewrite He1, He2. simpl.
  assert (e2 ∪ (e1 ∪ cf) = e2 ∪ cf) as ->; [|by eexists].
  apply map_eq. intros key. rewrite !lookup_union.
  destruct (e2 !! key) as [x|] eqn:Hkey;
    [by destruct (e1 !! key), (cf !! key)|].
  apply not_elem_of_dom in Hkey.
  rewrite (entries_dom w c2 e2 He2), <- Hsame,
    <- (entries_dom w c1 e1 He1) in Hkey.
  apply not_elem_of_dom in Hkey. rewrite Hkey.
  by destruct (cf !! key).
Qed.

Lemma invoke_overwrites_witness :
  configurable_of (config __init__) = Some ∅ ∧
  writes (AddCheckpointing "sqlite:///a.db")
  = writes (AddCheckpointing "sqlite:///b.db") ∧
  opens (open_world ∅) (AddCheckpointing "sqlite:///a.db") = true ∧
  opens (open_world ∅) (AddCheckpointing "sqlite:///b.db") = true ∧
  ∃ self',
    (invoke (open_world ∅) (AddCheckpointing "sqlite:///a.db");;
     invoke (open_world ∅) (AddCheckpointing "sqlite:///b.db")) __init__
    = Some (tt, self') ∧
    invoke (open_world ∅) (AddCheckpointing "sqlite:///b.db") __init__
    = Some (tt, self').
Proof.
  split; [reflexivity|]. split; [reflexivity|].
  split; [reflexivity|]. split; [reflexivity|].
  exact (invoke_overwrites (open_world ∅)
           (AddCheckpointing "sqlite:///a.db")
           (AddCheckpointing "sqlite:///b.db") __init__ ∅
           eq_refl eq_refl eq_refl eq_refl).
Defined.

(** X4: a chain on a fresh builder whose stores all open returns a
    builder whose [config] has the single entry ["configurable"], and
    the keys of that dictionary are exactly the keys written by the
    calls of the chain. *)
Theorem invoke_all_keys w cs :
  forallb (opens w) cs = true ->
  ∃ self cf,
    invoke_all w cs __init__ = Some (tt, self) ∧
    config self = VDict {[ "configurable" := VDict cf ]} ∧
    dom cf = ⋃ (writes <$> cs).
Proof.
  intros Hopen.
  destruct (invoke_all_dict w cs {[ "configurable" := VDict ∅ ]} ∅)
    as (cf & Hrun & Hdom & _); [done|done|].
  eexists _, cf. split; [exact Hrun|]. simpl.
  split; [by rewrite insert_singleton_eq|].
  by rewrite Hdom, dom_empty_L, (right_id_L ∅ (∪)).
Qed.

Lemma invoke_all_keys_witness :
  forallb (opens (open_world ∅))
    [AddUserContext "u" "s"; AddSqliteGraph "./g.db"] = true ∧
  ∃ self cf,
    invoke_all (open_world ∅)
      [AddUserContext "u" "s"; AddSqliteGraph "./g.db"] __init__
    = Some (tt, self) ∧
    configurable_of (config self) = Some cf ∧
    dom cf = {[ "user_id"; "session_id"; "graph_db" ]}.
Proof.
  split; [reflexivity|].
  destruct (invoke_all_keys (open_world ∅)
    [AddUserContext "u" "s"; AddSqliteGraph "./g.db"] eq_refl)
    as (self & cf & Hrun & Hcfg & Hdom).
  exists self, cf. split; [exact Hrun|]. split.
  - rewrite Hcfg. reflexivity.
  - rewrite Hdom. simpl. set_solver.
Defined.

(** X5: a chain on a fresh builder raises exactly when it contains an
    [add_checkpointing] call whose store cannot be opened. *)
Theorem invoke_all_raises w cs :
  invoke_all w cs __init__ = None ↔
  ∃ checkpoint_path,
    AddCheckpointing checkpoint_path ∈ cs ∧
    from_conn_string w checkpoint_path = None.
Proof.
  rewrite <- forallb_opens_false. split.
  - intros Hnone.
    destruct (forallb (opens w) cs) eqn:Hopen; [|done].
    destruct (invoke_all_dict w cs {[ "configurable" := VDict ∅ ]} ∅)
      as (cf & Hrun & _); [done|done|].
    unfold __init__ in Hnone. by rewrite Hrun in Hnone.
  - by apply (invoke_all_dict_None w cs _ ∅).
Qed.

(** ** Raising *)

(** X6: on a builder whose [config] has no ["configurable"] dictionary
    (the attribute was replaced from outside), every chain that starts
    with a fluent call raises, while [build] still returns [config]. *)
Theorem invoke_all_without_configurable w c cs self :
  configurable_of (config self) = None ->
  invoke_all w (c :: cs) self = None ∧
  build self = Some (config self, self).
Proof.
  intros Hcf. split; [|reflexivity].
  simpl. apply bind_None. by apply invoke_None.
Qed.

Lemma invoke_all_without_configurable_witness :
  configurable_of (config (Builder (VDict ∅))) = None ∧
  invoke_all (open_world ∅) [AddThreadId "t1"; AddSqliteGraph "./g.db"]
    (Builder (VDict ∅)) = None ∧
  build (Builder (VDict ∅)) = Some (VDict ∅, Builder (VDict ∅)).
Proof.
  split; [reflexivity|].
  exact (invoke_all_without_configurable (open_world ∅) (AddThreadId "t1")
           [AddSqliteGraph "./g.db"] (Builder (VDict ∅)) eq_refl).
Defined.

(** X8: [create_advanced_config] raises exactly when the checkpoint store
    ["sqlite:///checkpoints.db"] cannot be opened; the environment
    cannot make it raise. *)
Theorem create_advanced_config_raises w :
  create_advanced_config w = None ↔
  from_conn_string w "sqlite:///checkpoints.db" = None.
Proof.
  unfold create_advanced_config, add_checkpointing.
  generalize (getenv w "NEO4J_PASSWORD" "password") as password.
  intros password.
  destruct (from_conn_string w "sqlite:///checkpoints.db") as [saver|].
  - split; [|discriminate]. vm_compute. discriminate.
  - split; [done|]. intros _. vm_compute. reflexivity.
Qed.

(** X9: [create_enhanced_config] and [integrate_with_graph_db] raise
    exactly when the checkpoint store ["sqlite:///checkpoints.db"]
    cannot be opened, whatever the thread id. *)
Theorem create_enhanced_config_raises w thread_id :
  (create_enhanced_config w thread_id = None ↔
   from_conn_string w "sqlite:///checkpoints.db" = None) ∧
  (integrate_with_graph_db w = None ↔
   from_conn_string w "sqlite:///checkpoints.db" = None).
Proof.
  destruct (from_conn_string w "sqlite:///checkpoints.db")
    as [saver|] eqn:Hopen.
  - destruct (create_enhanced_config_Some w saver thread_id Hopen)
      as (c & Hcfg & _).
    destruct (create_enhanced_config_Some w saver
      (Some "graph_conversation") Hopen) as (c' & Hcfg' & _).
    split; (split; [|discriminate]).
    + by rewrite Hcfg.
    + unfold integrate_with_graph_db. rewrite Hcfg'. simpl.
      rewrite (setitem_in_configurable _ c')
        by by rewrite lookup_singleton_eq.
      discriminate.
  - split; (split; [done|intros _]).
    + by apply create_enhanced_config_None.
    + unfold integrate_with_graph_db.
      by rewrite create_enhanced_config_None.
Qed.

(** ** Memory configuration, in general *)

(** X7: [add_memory_config] stores a record that always has a ["type"]
    entry and otherwise exactly the keyword fields, each with the value
    that was passed; ["type"] is [memory_type] unless a keyword field
    of that name was passed. *)
Theorem add_memory_config_fields
    self cf memory_type (kwargs : gmap string value) :
  configurable_of (config self) = Some cf ->
  ∃ self' m,
    add_memory_config memory_type kwargs self = Some (tt, self') ∧
    getitems (config self') ["configurable"; "memory"] = Some (VDict m) ∧
    dom m = {[ "type" ]} ∪ dom kwargs ∧
    (∀ key x, kwargs !! key = Some x -> m !! key = Some x) ∧
    (kwargs !! "type" = None -> m !! "type" = Some (VStr memory_type)).
Proof.
  intros Hcf. unfold add_memory_config.
  destruct (assign_configurable_spec "memory"
    (VDict (unpack_into {[ "type" := VStr memory_type ]} kwargs))
    self cf Hcf) as (self' & Hrun & Hcf' & _).
  exists self', (unpack_into {[ "type" := VStr memory_type ]} kwargs).
  split; [done|]. split.
  { by rewrite (getitems_configurable _ _ _ _ Hcf'), lookup_insert_eq. }
  split; [|split].
  - unfold unpack_into. rewrite dom_union_L, dom_singleton_L.
    apply (comm_L (∪)).
  - intros key x Hkey. by rewrite lookup_unpack_into, Hkey.
  - intros Hkey. by rewrite lookup_unpack_into, Hkey, lookup_singleton_eq.
Qed.

Lemma add_memory_config_fields_witness :
  configurable_of (config __init__) = Some ∅ ∧
  ∃ self',
    add_memory_config "sqlite" {[ "table" := VStr "memory" ]} __init__
    = Some (tt, self') ∧
    getitems (config self') ["configurable"; "memory"]
    = Some (VDict {[ "type" := VStr "sqlite"; "table" := VStr "memory" ]}).
Proof.
  split; [reflexivity|].
  destruct (add_memory_config_fields __init__ ∅ "sqlite"
    {[ "table" := VStr "memory" ]} eq_refl)
    as (self' & m & Hrun & Hmemory & Hdom & Hkwargs & Htype).
  exists self'. split; [exact Hrun|].
  rewrite Hmemory. do 2 f_equal. apply map_eq. intros key.
  destruct (decide (key = "type")) as [->|Htype'].
  { rewrite Htype by reflexivity. reflexivity. }
  destruct (decide (key = "table")) as [->|Htable].
  { rewrite (Hkwargs "table" (VStr "memory")) by reflexivity. reflexivity. }
  rewrite lookup_insert_ne, lookup_singleton_ne by done.
  apply not_elem_of_dom. rewrite Hdom, dom_singleton_L.
  set_solver.
Defined.

(** * Further properties of the literal constructor and the tools *)

(** X13: the thread id is stored under [thread_id] and nowhere else:
    the records for any two arguments are equal once that entry is
    deleted from both. *)
Theorem create_enhanced_config_thread_id w saver thread_id1 thread_id2 :
  from_conn_string w "sqlite:///checkpoints.db" = Some saver ->
  ∃ cfg1 cfg2 rest,
    create_enhanced_config w thread_id1 = Some cfg1 ∧
    create_enhanced_config w thread_id2 = Some cfg2 ∧
    getitems cfg1 ["configurable"; "thread_id"]
    = Some (VStr (default "1" thread_id1)) ∧
    delitem_at cfg1 ["configurable"] "thread_id" = Some rest ∧
    delitem_at cfg2 ["configurable"] "thread_id" = Some rest.
Proof.
  intros Hopen. unfold create_enhanced_config. rewrite Hopen. simpl.
  generalize (default "1" thread_id1) as t1.
  generalize (default "1" thread_id2) as t2. intros t2 t1.
  eexists _, _, _. split; [reflexivity|]. split; [reflexivity|].
  split; [reflexivity|].
  split; vm_compute; reflexivity.
Qed.

Lemma create_enhanced_config_thread_id_witness :
  from_conn_string (open_world ∅) "sqlite:///checkpoints.db" = Some 0%N ∧
  ∃ cfg1 cfg2,
    create_enhanced_config (open_world ∅) None = Some cfg1 ∧
    create_enhanced_config (open_world ∅) (Some "conversation_1")
    = Some cfg2 ∧
    delitem_at cfg1 ["configurable"] "thread_id"
    = delitem_at cfg2 ["configurable"] "thread_id".
Proof.
  split; [reflexivity|].
  destruct (create_enhanced_config_thread_id (open_world ∅) 0%N None
    (Some "conversation_1") eq_refl)
    as (cfg1 & cfg2 & rest & H1 & H2 & _ & Hrest1 & Hrest2).
  exists cfg1, cfg2. split; [exact H1|]. split; [exact H2|].
  by rewrite Hrest1, Hrest2.
Defined.

Lemma string_app_nil_r s : s +:+ "" = s.
Proof.
  induction s as [|a s IH]; [done|].
  change (String a (s +:+ "") = String a s). by rewrite IH.
Qed.

(** X10: in the record returned by [integrate_with_graph_db], each of
    the three graph operations is callable and returns its fixed prefix
    followed by the argument. *)
Theorem graph_operations_calls w saver arg :
  from_conn_string w "sqlite:///checkpoints.db" = Some saver ->
  ∃ cfg store find query,
    integrate_with_graph_db w = Some cfg ∧
    getitems cfg ["configurable"; "graph_operations"; "store_entity"]
    = Some store ∧
    getitems cfg ["configurable"; "graph_operations"; "find_relationships"]
    = Some find ∧
    getitems cfg ["configurable"; "graph_operations"; "query_graph"]
    = Some query ∧
    call_value store arg = Some ("Stored entity: " +:+ arg) ∧
    call_value find arg = Some ("Found relationships for: " +:+ arg) ∧
    call_value query arg = Some ("Executed query: " +:+ arg).
Proof.
  intros Hopen.
  destruct (create_enhanced_config_Some w saver
    (Some "graph_conversation") Hopen) as (c & Hcfg & _).
  assert (∀ prefix, fstring [Lit prefix; Field arg] = prefix +:+ arg)
    as Hfstring.
  { intros prefix. unfold fstring. simpl. by rewrite string_app_nil_r. }
  eexists _, _, _, _. split.
  { unfold integrate_with_graph_db. rewrite Hcfg. simpl.
    apply (setitem_in_configurable _ c). by rewrite lookup_singleton_eq. }
  assert (∀ name,
    getitems
      (VDict (<["configurable" :=
                 VDict (<["graph_operations" := VDict graph_operations]> c)]>
              {[ "configurable" := VDict c ]}))
      ["configurable"; "graph_operations"; name]
    = graph_operations !! name) as Hop.
  { intros name. simpl. rewrite lookup_insert_eq. simpl.
    rewrite lookup_insert_eq. simpl.
    by destruct (graph_operations !! name). }
  rewrite !Hop.
  split; [reflexivity|]. split; [reflexivity|]. split; [reflexivity|].
  unfold call_value. cbv beta. by rewrite !Hfstring.
Qed.

Lemma graph_operations_calls_witness :
  from_conn_string (open_world ∅) "sqlite:///checkpoints.db" = Some 0%N ∧
  ∃ cfg store,
    integrate_with_graph_db (open_world ∅) = Some cfg ∧
    getitems cfg ["configurable"; "graph_operations"; "store_entity"]
    = Some store ∧
    call_value store "Paris" = Some "Stored entity: Paris".
Proof.
  split; [reflexivity|].
  destruct (graph_operations_calls (open_world ∅) 0%N "Paris" eq_refl)
    as (cfg & store & find & query & Hcfg & Hstore & _ & _ & Hcall & _).
  exists cfg, store. split; [exact Hcfg|]. split; [exact Hstore|].
  exact Hcall.
Defined.

(** ** The weather sentence *)

Lemma string_app_length s1 s2 :
  String.length (s1 +:+ s2) = String.length s1 + String.length s2.
Proof.
  induction s1 as [|a s1 IH]; [done|].
  change (S (String.length (s1 +:+ s2))
          = S (String.length s1) + String.length s2).
  by rewrite IH.
Qed.

Lemma string_app_inv_tail t : ∀ s1 s2, s1 +:+ t = s2 +:+ t -> s1 = s2.
Proof.
  induction s1 as [|a s1 IH]; intros [|b s2] Heq.
  - done.
  - apply (f_equal String.length) in Heq.
    rewrite !string_app_length in Heq. simpl in Heq. lia.
  - apply (f_equal String.length) in Heq.
    rewrite !string_app_length in Heq. simpl in Heq. lia.
  - change (String a (s1 +:+ t) = String b (s2 +:+ t)) in Heq.
    injection Heq as -> Heq. f_equal. by apply IH.
Qed.

(** X11: the weather sentence determines the city: two cities with the
    same sentence are the same city. *)
Theorem get_weather_inj city1 city2 :
  get_weather city1 = get_weather city2 -> city1 = city2.
Proof.
  assert (∀ city, get_weather city
    = "The weather in " +:+ (city +:+ " is sunny and 72°F")) as Hsentence.
  { intros city. unfold get_weather, fstring. simpl. reflexivity. }
  rewrite !Hsentence. intros Heq.
  apply (inj (String.app "The weather in ")) in Heq.
  by apply string_app_inv_tail in Heq.
Qed.

Lemma get_weather_inj_witness :
  get_weather "Paris" = get_weather "Paris" ∧ "Paris" = "Paris".
Proof.
  split; [reflexivity|].
  exact (get_weather_inj "Paris" "Paris" eq_refl).
Defined.

(** * The two programs *)

(** X12: no builder chain returns a record that the literal constructor
    returns: the constructor's [graph_db] has a [schema] field, which no
    builder call writes. *)
Theorem chain_never_enhanced w cs thread_id cfg :
  chain (invoke_all w cs;; build) = Some cfg ->
  create_enhanced_config w thread_id ≠ Some cfg.
Proof.
  intros Hchain Hcfg.
  destruct (from_conn_string w "sqlite:///checkpoints.db")
    as [saver|] eqn:Hopen;
    [|by rewrite create_enhanced_config_None in Hcfg].
  destruct (create_enhanced_config_Some w saver thread_id Hopen)
    as (c & Hcfg' & _ & _ & _ & g & Hg & Hschema).
  rewrite Hcfg' in Hcfg. injection Hcfg as <-.
  unfold chain in Hchain.
  destruct ((invoke_all w cs;; build) __init__) as [[r self]|] eqn:Hrun;
    [|discriminate].
  simpl in Hchain. injection Hchain as ->.
  apply bind_inv in Hrun as ([] & self1 & Hrun & [= Hr <-]).
  destruct (graph_db_invariant_invoke_all w cs _ _
    graph_db_invariant_init Hrun) as (c' & Hc' & Hshape).
  rewrite Hr in Hc'.
  rewrite (configurable_of_dict _ c) in Hc'
    by by rewrite lookup_singleton_eq.
  injection Hc' as <-.
  specialize (Hshape g Hg).
  unfold is_sqlite_variant, is_neo4j_variant, is_sqlite_with_schema,
    has_shape in *.
  destruct g as [| | |d| |]; try discriminate.
  apply andb_true_iff in Hschema as [Hdom%bool_decide_eq_true _].
  rewrite Hdom in Hshape.
  destruct Hshape as [[Hbad%bool_decide_eq_true _]%andb_true_iff
                     |[Hbad%bool_decide_eq_true _]%andb_true_iff].
  - assert ("schema" ∈ ({[ "type"; "path" ]} : gset string)) as Hin
      by (rewrite <- Hbad; set_solver).
    set_solver.
  - assert ("schema" ∈ ({[ "type"; "uri"; "user"; "password";
                            "database" ]} : gset string)) as Hin
      by (rewrite <- Hbad; set_solver).
    set_solver.
Qed.

Lemma chain_never_enhanced_witness :
  chain (invoke_all (open_world ∅) [AddThreadId "1"];; build)
  = Some (VDict {[ "configurable" :=
                     VDict {[ "thread_id" := VStr "1" ]} ]}) ∧
  create_enhanced_config (open_world ∅) None
  ≠ Some (VDict {[ "configurable" :=
                     VDict {[ "thread_id" := VStr "1" ]} ]}).
Proof.
  assert (chain (invoke_all (open_world ∅) [AddThreadId "1"];; build)
          = Some (VDict {[ "configurable" :=
                             VDict {[ "thread_id" := VStr "1" ]} ]}))
    as Hchain by (vm_compute; reflexivity).
  split; [exact Hchain|].
  exact (chain_never_enhanced (open_world ∅) [AddThreadId "1"] None _
           Hchain).
Defined.

(** The two example functions of [graph_config_example.py] are chains of
    fluent calls in the sense of [invoke_all]. *)
Lemma create_advanced_config_chain w :
  create_advanced_config w
  = chain (invoke_all w
      [AddThreadId "conversation_1";
       AddUserContext "user123" "session456";
       AddNeo4jGraph "bolt://localhost:7687" "neo4j"
         (getenv w "NEO4J_PASSWORD" "password") (Some "langgraph");
       AddMemoryConfig "neo4j"
         {[ "collection" := VStr "conversations";
            "max_tokens" := VInt 4000 ]};
       AddCheckpointing "sqlite:///checkpoints.db";
       AddCustomMetadata
         {[ "environment" := VStr "production";
            "version" := VStr "1.0.0";
            "features" :=
              VList [VStr "graph_db"; VStr "memory";
                     VStr "checkpointing"] ]}];;
    build).
Proof.
  unfold create_advanced_config. simpl. unfold add_checkpointing.
  generalize (getenv w "NEO4J_PASSWORD" "password") as password.
  intros password.
  destruct (from_conn_string w "sqlite:///checkpoints.db");
    vm_compute; reflexivity.
Qed.

Lemma create_sqlite_config_chain w :
  create_sqlite_config
  = chain (invoke_all w
      [AddThreadId "thread_2";
       AddSqliteGraph "./knowledge_graph.db";
       AddMemoryConfig "sqlite" {[ "table" := VStr "conversation_memory" ]};
       AddCustomMetadata
         {[ "graph_schema" :=
              VDict {[ "nodes" :=
                         VList [VStr "concepts"; VStr "entities";
                                VStr "relationships"];
                       "edges" :=
                         VList [VStr "relates_to"; VStr "part_of";
                                VStr "similar_to"] ]} ]}];;
    build).
Proof. vm_compute. reflexivity. Qed.

(** * The shape of [graph_db], in full *)

(** When the checkpoint store opens, the literal constructor returns a
    record with a [graph_db] entry of the shape with [schema]. *)
Lemma create_enhanced_config_graph_db w saver thread_id :
  from_conn_string w "sqlite:///checkpoints.db" = Some saver ->
  ∃ cfg g,
    create_enhanced_config w thread_id = Some cfg ∧
    getitems cfg ["configurable"; "graph_db"] = Some g ∧
    is_sqlite_with_schema g = true.
Proof.
  intros Hopen.
  destruct (create_enhanced_config_Some w saver thread_id Hopen)
    as (c & Hcfg & _ & _ & _ & g & Hg & Hshape).
  exists (VDict {[ "configurable" := VDict c ]}), g.
  split; [done|]. split; [|done].
  rewrite (getitems_configurable _ c)
    by (apply configurable_of_dict; by rewrite lookup_singleton_eq).
  by rewrite Hg.
Qed.

Lemma integrate_with_graph_db_graph_db w saver :
  from_conn_string w "sqlite:///checkpoints.db" = Some saver ->
  ∃ cfg g,
    integrate_with_graph_db w = Some cfg ∧
    getitems cfg ["configurable"; "graph_db"] = Some g ∧
    is_sqlite_with_schema g = true.
Proof.
  intros Hopen.
  destruct (create_enhanced_config_Some w saver
    (Some "graph_conversation") Hopen)
    as (c & Hcfg & _ & _ & _ & g & Hg & Hshape).
  eexists _, g. split; [|split; [|done]].
  - unfold integrate_with_graph_db. rewrite Hcfg. simpl.
    apply (setitem_in_configurable _ c). by rewrite lookup_singleton_eq.
  - rewrite (getitems_configurable _
      (<["graph_operations" := VDict graph_operations]> c))
      by (apply configurable_of_dict; by rewrite lookup_insert_eq).
    by rewrite lookup_insert_ne, Hg by done.
Qed.

(** A call that does not write [graph_db] leaves it as it was. *)
Lemma invoke_keeps_graph_db w c self cf :
  configurable_of (config self) = Some cf ->
  opens w c = true ->
  "graph_db" ∉ writes c ->
  ∃ self',
    invoke w c self = Some (tt, self') ∧
    getitems (config self') ["configurable"; "graph_db"]
    = getitems (config self) ["configurable"; "graph_db"].
Proof.
  destruct self as [cfg]. simpl.
  intros (d & -> & Hcf)%configurable_of_Some Hopen Hwrites.
  apply entries_opens in Hopen as [e He].
  eexists. split; [by rewrite (invoke_dict w c d cf Hcf), He|].
  simpl. rewrite lookup_insert_eq, Hcf. simpl.
  rewrite lookup_union_r; [done|].
  apply not_elem_of_dom. by rewrite (entries_dom w c e He).
Qed.

(** C2 (amended): in every record produced by a builder chain the
    [graph_db] entry is absent or a record with exactly the fields
    [{type: "sqlite", path}] or exactly the fields
    [{type: "neo4j", uri, user, password, database}].  On every builder
    with a configurable dictionary [add_neo4j_graph] and
    [add_sqlite_graph] return and write exactly such a record, built
    from their arguments, and every other fluent call whose store opens
    returns and leaves [graph_db] as it was.  Every record produced by
    the literal constructor (also through [integrate_with_graph_db])
    has a [graph_db] entry, a record with exactly the fields
    [{type: "sqlite", path, schema}]; and when the checkpoint store
    opens, both functions return such a record. *)
Theorem graph_db_shape w :
  (∀ o cfg,
     produced w o cfg ->
     match o with
     | ByBuilder =>
         getitems cfg ["configurable"; "graph_db"] = None ∨
         ∃ g, getitems cfg ["configurable"; "graph_db"] = Some g ∧
              (is_sqlite_variant g = true ∨ is_neo4j_variant g = true)
     | ByLiteral =>
         ∃ g, getitems cfg ["configurable"; "graph_db"] = Some g ∧
              is_sqlite_with_schema g = true
     end) ∧
  (∀ self cf uri user password database,
     configurable_of (config self) = Some cf ->
     ∃ self' g,
       add_neo4j_graph uri user password database self = Some (tt, self') ∧
       getitems (config self') ["configurable"; "graph_db"] = Some g ∧
       g = VDict {[ "type" := VStr "neo4j";
                    "uri" := VStr uri;
                    "user" := VStr user;
                    "password" := VStr password;
                    "database" := VStr (default "neo4j" database) ]} ∧
       is_neo4j_variant g = true) ∧
  (∀ self cf db_path,
     configurable_of (config self) = Some cf ->
     ∃ self' g,
       add_sqlite_graph db_path self = Some (tt, self') ∧
       getitems (config self') ["configurable"; "graph_db"] = Some g ∧
       g = VDict {[ "type" := VStr "sqlite"; "path" := VStr db_path ]} ∧
       is_sqlite_variant g = true) ∧
  (∀ c self cf,
     configurable_of (config self) = Some cf ->
     opens w c = true ->
     "graph_db" ∉ writes c ->
     ∃ self',
       invoke w c self = Some (tt, self') ∧
       getitems (config self') ["configurable"; "graph_db"]
       = getitems (config self) ["configurable"; "graph_db"]) ∧
  (∀ saver thread_id,
     from_conn_string w "sqlite:///checkpoints.db" = Some saver ->
     (∃ cfg g,
        create_enhanced_config w thread_id = Some cfg ∧
        getitems cfg ["configurable"; "graph_db"] = Some g ∧
        is_sqlite_with_schema g = true) ∧
     (∃ cfg g,
        integrate_with_graph_db w = Some cfg ∧
        getitems cfg ["configurable"; "graph_db"] = Some g ∧
        is_sqlite_with_schema g = true)).
Proof.
  split; [|split; [|split; [|split]]].
  - intros o cfg Hproduced. destruct o.
    + destruct (getitems cfg ["configurable"; "graph_db"]) as [g|] eqn:Hg;
        [right|by left].
      exists g. split; [done|].
      exact (produced_graph_db_present w ByBuilder cfg g Hproduced Hg).
    + assert (∃ g, getitems cfg ["configurable"; "graph_db"] = Some g)
        as [g Hg].
      { destruct (from_conn_string w "sqlite:///checkpoints.db")
          as [saver|] eqn:Hopen.
        - inversion Hproduced as [|thread_id cfg' Hcfg|cfg' Hcfg]; subst.
          + destruct (create_enhanced_config_graph_db w saver thread_id
              Hopen) as (cfg' & g & Hcfg' & Hg & _).
            rewrite Hcfg' in Hcfg. injection Hcfg as <-. by exists g.
          + destruct (integrate_with_graph_db_graph_db w saver Hopen)
              as (cfg' & g & Hcfg' & Hg & _).
            rewrite Hcfg' in Hcfg. injection Hcfg as <-. by exists g.
        - inversion Hproduced as [|thread_id cfg' Hcfg|cfg' Hcfg]; subst.
          + by rewrite create_enhanced_config_None in Hcfg.
          + unfold integrate_with_graph_db in Hcfg.
            by rewrite create_enhanced_config_None in Hcfg. }
      exists g. split; [done|].
      exact (produced_graph_db_present w ByLiteral cfg g Hproduced Hg).
  - intros self cf uri user password database Hcf.
    unfold add_neo4j_graph. cbv zeta.
    destruct (assign_configurable_spec "graph_db"
      (VDict {[ "type" := VStr "neo4j";
                "uri" := VStr uri;
                "user" := VStr user;
                "password" := VStr password;
                "database" := VStr (default "neo4j" database) ]})
      self cf Hcf) as (self' & Hrun & Hcf' & _).
    eexists self', _. split; [exact Hrun|].
    split; [|split; [reflexivity|apply is_neo4j_variant_written]].
    by rewrite (getitems_configurable _ _ _ _ Hcf'), lookup_insert_eq.
  - intros self cf db_path Hcf. unfold add_sqlite_graph.
    destruct (assign_configurable_spec "graph_db"
      (VDict {[ "type" := VStr "sqlite"; "path" := VStr db_path ]})
      self cf Hcf) as (self' & Hrun & Hcf' & _).
    eexists self', _. split; [exact Hrun|].
    split; [|split; [reflexivity|apply is_sqlite_variant_written]].
    by rewrite (getitems_configurable _ _ _ _ Hcf'), lookup_insert_eq.
  - intros c self cf. apply invoke_keeps_graph_db.
  - intros saver thread_id Hopen. split.
    + by apply (create_enhanced_config_graph_db w saver).
    + by apply (integrate_with_graph_db_graph_db w saver).
Qed.

Lemma graph_db_shape_witness :
  configurable_of (config __init__) = Some ∅ ∧
  opens (open_world ∅) (AddThreadId "t1") = true ∧
  ("graph_db" ∉ writes (AddThreadId "t1")) ∧
  from_conn_string (open_world ∅) "sqlite:///checkpoints.db" = Some 0%N ∧
  (∃ self',
     add_sqlite_graph "./g.db" __init__ = Some (tt, self') ∧
     getitems (config self') ["configurable"; "graph_db"]
     = Some (VDict {[ "type" := VStr "sqlite"; "path" := VStr "./g.db" ]})) ∧
  (∃ self',
     invoke (open_world ∅) (AddThreadId "t1") __init__ = Some (tt, self') ∧
     getitems (config self') ["configurable"; "graph_db"] = None) ∧
  (∃ cfg g,
     create_enhanced_config (open_world ∅) None = Some cfg ∧
     getitems cfg ["configurable"; "graph_db"] = Some g ∧
     is_sqlite_with_schema g = true).
Proof.
  assert ("graph_db" ∉ writes (AddThreadId "t1")) as Hwrites.
  { simpl. intros Hin%elem_of_singleton. discriminate. }
  destruct (graph_db_shape (open_world ∅))
    as (_ & _ & Hsqlite & Hkeeps & Hliteral).
  split; [reflexivity|]. split; [reflexivity|]. split; [exact Hwrites|].
  split; [reflexivity|]. split; [|split].
  - destruct (Hsqlite __init__ ∅ "./g.db" eq_refl)
      as (self' & g & Hrun & Hg & -> & _).
    by exists self'.
  - destruct (Hkeeps (AddThreadId "t1") __init__ ∅ eq_refl eq_refl Hwrites)
      as (self' & Hrun & Hg).
    exists self'. split; [exact Hrun|]. by rewrite Hg.
  - exact (proj1 (Hliteral 0%N None eq_refl)).
Defined.
